(** * Centered moving average of [scripts/generate_moving_average.py]

    A shallow embedding of [compute_moving_average] and of the Python
    builtins it calls, in two layers:

    - a value-level model, where a series is a list of samples and the
      function returns either the smoothed series or the exception raised;
    - an object-store model, where lists and dicts are heap objects reached
      through references, [result.append] updates the store in place, and
      the function returns a reference to the list it built.

    Numbers are the kernel's binary64 floats; Python integers are [Z]. *)

From Stdlib Require Import ZArith Floats.
From stdpp Require Import base tactics option list list_numbers strings.

Open Scope Z_scope.

(** ** Exceptions *)

Inductive exn := ZeroDivisionError | IndexError | TypeError.

Inductive res (A : Type) : Type :=
  | Ok (a : A)
  | Raise (e : exn).
Arguments Ok {A} a.
Arguments Raise {A} e.

#[global] Instance res_ret : MRet res := λ A a, Ok a.
#[global] Instance res_bind : MBind res := λ A B f m,
  match m with
  | Ok a => f a
  | Raise e => Raise e
  end.
#[global] Instance res_fmap : FMap res := λ A B f m,
  match m with
  | Ok a => Ok (f a)
  | Raise e => Raise e
  end.

(** [for x in xs: acc = body(acc, x)], stopping at the first exception. *)
Fixpoint foldM {A B : Type} (body : B → A → res B) (acc : B) (xs : list A)
    : res B :=
  match xs with
  | [] => Ok acc
  | x :: xs' => acc' ← body acc x; foldM body acc' xs'
  end.

(** ** Binary64 numbers and the builtins on them *)

Module Float64.

(** [float(n)] for a Python integer: the nearest binary64 value.  It is
    applied to list lengths only, which are far below the range where the
    conversion overflows. *)
Definition of_int (n : Z) : float :=
  SF2Prim (binary_normalize prec emax n 0 false).

(** The integer nearest to ten times [m * 2^e], ties to the even one. *)
Definition tenths (m : positive) (e : Z) : Z :=
  match e with
  | Zneg p =>
      let d := Z.pow_pos 2 p in
      let q := (10 * Zpos m) `div` d in
      let r := (10 * Zpos m) `mod` d in
      match 2 * r ?= d with
      | Lt => q
      | Gt => q + 1
      | Eq => if Z.even q then q else q + 1
      end
  | _ => 10 * Zpos m * 2 ^ e
  end.

(** The binary64 value nearest to the decimal [n / 10] with sign [s]
    (what reading the decimal string back gives); the sign is kept on a
    zero. *)
Definition of_tenths (s : bool) (n : Z) : spec_float :=
  match n with
  | Zpos p => SFdiv prec emax (S754_finite s p 0) (S754_finite false 10 0)
  | _ => S754_zero s
  end.

(** [round(x, 1)]: infinities and NaN are returned unchanged; a finite [x]
    is rounded, from its exact value, to the nearest multiple of one tenth
    (ties to even), and that decimal is converted back to binary64. *)
Definition round1_spec (x : spec_float) : spec_float :=
  match x with
  | S754_finite s m e => of_tenths s (tenths m e)
  | _ => x
  end.

Definition round1 (x : float) : float := SF2Prim (round1_spec (Prim2SF x)).

(** Round-half-to-even, as a relation: [n] is an integer nearest to the
    rational [a / d], and is even when [a / d] lies half-way between two
    integers. *)
Definition nearest_even (a d n : Z) : Prop :=
  2 * Z.abs (a - n * d) ≤ d ∧ (2 * Z.abs (a - n * d) = d → Z.even n = true).

(** [n] is ten times [m * 2^e] rounded half-to-even to an integer. *)
Definition is_tenths (m : positive) (e n : Z) : Prop :=
  nearest_even (10 * Zpos m * 2 ^ Z.max e 0) (2 ^ Z.max (- e) 0) n.

(** [r] is [x] rounded half-to-even to one decimal digit. *)
Definition rounds_to_one_decimal (x r : float) : Prop :=
  match Prim2SF x with
  | S754_finite s m e => ∃ n, is_tenths m e n ∧ r = SF2Prim (of_tenths s n)
  | _ => r = x
  end.

(** Python's [==] on floats is [PrimFloat.eqb]: NaN differs from itself and
    the two zeros are equal.  Two floats are the same number when they are
    the same binary64 value or compare equal. *)
Definition same_number (x y : float) : Prop := x = y ∨ (x =? y)%float = true.

(** The float that the decimal [n / 10] reads as. *)
Definition tenth (n : Z) : float := SF2Prim (of_tenths false n).

(** [1.0], unpacked. *)
Definition sf_one : spec_float := S754_finite false 4503599627370496 (-52).

End Float64.

(** ** Builtins on lists and integers *)

Definition py_len {A : Type} (l : list A) : Z := Z.of_nat (length l).

(** [range(start, stop)] *)
Definition py_range (start stop : Z) : list Z := seqZ start (stop - start).

(** [l[j]]: a negative index counts from the end. *)
Definition py_getitem {A : Type} (l : list A) (j : Z) : res A :=
  let k := if bool_decide (j < 0) then j + py_len l else j in
  if bool_decide (0 ≤ k < py_len l) then
    match l !! Z.to_nat k with
    | Some x => Ok x
    | None => Raise IndexError
    end
  else Raise IndexError.

(** [l[start:stop]] for [0 <= start] and [0 <= stop]: the items at indices
    [start], ..., [stop - 1] that exist. *)
Definition py_slice {A : Type} (l : list A) (start stop : Z) : list A :=
  take (Z.to_nat (stop - start)) (drop (Z.to_nat start) l).

(** [sum(xs)] on floats: the integer [0] plus the items, from left to
    right.  (CPython 3.12 and later also carry a compensation term for the
    rounding errors of the partial sums; the two agree on a one-element
    list and wherever the partial sums are exact.) *)
Definition py_sum (xs : list float) : float :=
  foldl PrimFloat.add (Float64.of_int 0) xs.

(** [x / n] for a float (or the integer [0] of an empty sum) [x] and an
    integer [n]. *)
Definition py_truediv (x : float) (n : Z) : res float :=
  if bool_decide (n = 0) then Raise ZeroDivisionError
  else Ok (x / Float64.of_int n)%float.

(** ** The value-level model *)

(** A row [{'date': ..., 'production': ...}]. *)
Record Sample := mkSample { date : string; production : float }.

Definition half_window (window_size : Z) : Z := window_size `div` 2.

Definition start (window_size i : Z) : Z :=
  0 `max` (i - half_window window_size).

Definition end_ (n window_size i : Z) : Z :=
  n `min` (start window_size i + window_size).

(** One iteration of the loop, from the list built so far. *)
Definition loop_body (data : list Sample) (window_size : Z)
    (result : list Sample) (i : Z) : res (list Sample) :=
  let start := start window_size i in
  let end_ := end_ (py_len data) window_size i in
  window_values ← mapM (λ j, d ← py_getitem data j; mret (production d))
                       (py_range start end_);
  average ← py_truediv (py_sum window_values) (py_len window_values);
  d ← py_getitem data i;
  mret (result ++ [ {| date := date d; production := Float64.round1 average |} ]).

Definition compute_moving_average (data : list Sample) (window_size : Z)
    : res (list Sample) :=
  foldM (loop_body data window_size) [] (py_range 0 (py_len data)).

(** ** The object-store model *)

Module Store.

Abbreviation loc := nat.

(** The objects the function touches.  Strings and floats are immutable
    and are held by value; a row dict has exactly the keys ['date'] and
    ['production']. *)
Inductive object :=
  | PyList (items : list loc)
  | PyDict (row : Sample).

(** A new object takes the next free location. *)
Abbreviation heap := (list object).

Definition M (A : Type) : Type := heap → res (A * heap).

#[global] Instance M_ret : MRet M := λ A a h, Ok (a, h).
#[global] Instance M_bind : MBind M := λ A B f m h,
  match m h with
  | Ok (a, h') => f a h'
  | Raise e => Raise e
  end.

Definition lift {A : Type} (r : res A) : M A := λ h,
  match r with
  | Ok a => Ok (a, h)
  | Raise e => Raise e
  end.

Definition alloc (o : object) : M loc := λ h, Ok (length h, h ++ [o]).

Definition list_items (l : loc) : M (list loc) := λ h,
  match h !! l with
  | Some (PyList items) => Ok (items, h)
  | _ => Raise TypeError
  end.

Definition dict_row (l : loc) : M Sample := λ h,
  match h !! l with
  | Some (PyDict row) => Ok (row, h)
  | _ => Raise TypeError
  end.

(** [len(l)], [l[j]], [d['production']], [d['date']], [l.append(x)] *)
Definition list_len (l : loc) : M Z :=
  items ← list_items l; mret (py_len items).

Definition list_getitem (l : loc) (j : Z) : M loc :=
  items ← list_items l; lift (py_getitem items j).

Definition dict_production (d : loc) : M float :=
  row ← dict_row d; mret (production row).

Definition dict_date (d : loc) : M string :=
  row ← dict_row d; mret (date row).

Definition list_append (l x : loc) : M unit := λ h,
  match h !! l with
  | Some (PyList items) => Ok ((), <[l := PyList (items ++ [x])]> h)
  | _ => Raise TypeError
  end.

(** [for x in xs: body(x)] *)
Fixpoint for_each {A : Type} (xs : list A) (body : A → M unit) : M unit :=
  match xs with
  | [] => mret ()
  | x :: xs' => body x;; for_each xs' body
  end.

(** The loop body; [window_values] is a temporary list of floats that no
    other object refers to, and is held by value. *)
Definition loop_body (data : loc) (window_size : Z) (result : loc) (i : Z)
    : M unit :=
  let start := start window_size i in
  len_data ← list_len data;
  let end_ := end_ len_data window_size i in
  window_values ← mapM (λ j, d ← list_getitem data j; dict_production d)
                       (py_range start end_);
  average ← lift (py_truediv (py_sum window_values) (py_len window_values));
  d ← list_getitem data i;
  date_i ← dict_date d;
  row ← alloc (PyDict {| date := date_i;
                         production := Float64.round1 average |});
  list_append result row.

Definition compute_moving_average (data : loc) (window_size : Z) : M loc :=
  result ← alloc (PyList []);
  n ← list_len data;
  for_each (py_range 0 n) (loop_body data window_size result);;
  mret result.

(** The series a list object stands for, when it is a list of row dicts. *)
Definition read_row (h : heap) (l : loc) : option Sample :=
  match h !! l with
  | Some (PyDict row) => Some row
  | _ => None
  end.

Definition read_series (h : heap) (l : loc) : option (list Sample) :=
  match h !! l with
  | Some (PyList items) => mapM (read_row h) items
  | _ => None
  end.

(** The store after the function has built [out] on top of [h]: the result
    list at the first free location, then one dict per row. *)
Definition extend (h : heap) (out : list Sample) : heap :=
  h ++ PyList (seq (S (length h)) (length out)) :: (PyDict <$> out).

End Store.

(** ** The window, the mean and the smoothed row, as closed forms *)

Definition window (data : list Sample) (window_size : Z) (i : Z) : list Sample :=
  py_slice data (start window_size i) (end_ (py_len data) window_size i).

Definition mean (vs : list float) : float :=
  (py_sum vs / Float64.of_int (py_len vs))%float.

Definition smoothed (data : list Sample) (window_size : Z) (i : nat) (s : Sample)
    : Sample :=
  {| date := date s;
     production :=
       Float64.round1 (mean (production <$> window data window_size (Z.of_nat i))) |}.

(** ** Sample inputs *)

Definition data6 : list Sample :=
  [ mkSample "d0" 1; mkSample "d1" 2; mkSample "d2" 3;
    mkSample "d3" 4; mkSample "d4" 5; mkSample "d5" 6 ].

Definition data3 : list Sample :=
  [ mkSample "d0" 0; mkSample "d1" 0; mkSample "d2" 3 ].

(** A store holding [data3] as three dicts and the list of them. *)
Definition heap3 : list Store.object :=
  [ Store.PyDict (mkSample "d0" 0); Store.PyDict (mkSample "d1" 0);
    Store.PyDict (mkSample "d2" 3); Store.PyList [0; 1; 2]%nat ].

(** The variant the function is not: every input rounded before it enters
    a window sum. *)
Definition round_inputs (data : list Sample) : list Sample :=
  (λ s, {| date := date s; production := Float64.round1 (production s) |}) <$> data.

(** The same series under other labels. *)
Definition relabel (f : string → string) (s : Sample) : Sample :=
  {| date := f (date s); production := production s |}.

(** A series with a NaN in the middle. *)
Definition data_nan : list Sample :=
  [ mkSample "d0" 1; mkSample "d1" nan; mkSample "d2" 3 ].

(** A store whose list holds one and the same dict three times. *)
Definition heap_aliased : list Store.object :=
  [ Store.PyDict (mkSample "d0" 2); Store.PyList [0; 0; 0]%nat ].

(** * Properties of the builtins *)

Section builtins.
Context {A : Type}.
Implicit Types (l : list A) (x : A).

Lemma py_getitem_nat l (i : nat) x :
  l !! i = Some x → py_getitem l (Z.of_nat i) = Ok x.
Proof.
  intros Hi. pose proof (lookup_lt_Some _ _ _ Hi).
  unfold py_getitem, py_len.
  rewrite (bool_decide_eq_false_2 (Z.of_nat i < 0)) by lia.
  rewrite bool_decide_eq_true_2 by lia.
  by rewrite Nat2Z.id, Hi.
Qed.

Lemma py_len_slice l a b :
  0 ≤ a → a ≤ b ≤ py_len l → py_len (py_slice l a b) = b - a.
Proof.
  unfold py_slice, py_len. intros Ha Hb.
  rewrite length_take, length_drop. lia.
Qed.

Lemma lookup_py_slice l a b (k : nat) :
  0 ≤ a → Z.of_nat k < b - a →
  py_slice l a b !! k = l !! (Z.to_nat a + k)%nat.
Proof.
  intros Ha Hk. unfold py_slice.
  rewrite lookup_take_lt by lia. by rewrite lookup_drop.
Qed.

Lemma py_slice_all l : py_slice l 0 (py_len l) = l.
Proof.
  unfold py_slice, py_len. rewrite Z.sub_0_r, Nat2Z.id. cbn [Z.to_nat drop].
  apply firstn_all.
Qed.

End builtins.

Lemma mapM_res_Forall2 {A B : Type} (f : A → res B) xs ys :
  Forall2 (λ x y, f x = Ok y) xs ys → mapM f xs = Ok ys.
Proof.
  induction 1 as [|x y xs ys Hxy _ IH]; [done|].
  cbn. rewrite Hxy. cbn. rewrite IH. done.
Qed.

(** * Window bounds *)

Lemma half_window_bounds w : 1 ≤ w → 0 ≤ half_window w ∧ 2 * half_window w ≤ w.
Proof.
  intros Hw. unfold half_window. split.
  - apply Z.div_pos; lia.
  - apply Z.mul_div_le. lia.
Qed.

Lemma window_bounds n w i :
  1 ≤ w → 0 ≤ i < n →
  0 ≤ start w i ≤ i ∧ i < end_ n w i ≤ n.
Proof.
  intros Hw Hi. destruct (half_window_bounds w Hw) as [H0 H2].
  unfold end_, start. lia.
Qed.

(** The list comprehension reads exactly the slice [data[start:end]]. *)
Lemma window_values_slice (data : list Sample) a b :
  0 ≤ a → b ≤ py_len data →
  mapM (λ j, d ← py_getitem data j; mret (production d)) (py_range a b)
  = Ok (production <$> py_slice data a b).
Proof.
  intros Ha Hb. apply mapM_res_Forall2, Forall2_same_length_lookup_2.
  - unfold py_range, py_slice, py_len in *.
    rewrite length_seqZ, length_fmap, length_take, length_drop. lia.
  - intros k j v [-> Hk]%lookup_seqZ Hv.
    unfold py_range in *. rewrite list_lookup_fmap in Hv.
    rewrite lookup_py_slice in Hv by lia.
    destruct (data !! _) as [d|] eqn:Hd; [|done]. injection Hv as <-.
    replace (a + Z.of_nat k) with (Z.of_nat (Z.to_nat a + k)) by lia.
    by rewrite (py_getitem_nat _ _ _ Hd).
Qed.

(** * The loop *)

Lemma loop_body_ok data w acc (i : nat) s :
  1 ≤ w → data !! i = Some s →
  loop_body data w acc (Z.of_nat i) = Ok (acc ++ [smoothed data w i s]).
Proof.
  intros Hw Hi. pose proof (lookup_lt_Some _ _ _ Hi) as Hlt.
  destruct (window_bounds (py_len data) w (Z.of_nat i) Hw) as [Hs He];
    [unfold py_len; lia|].
  unfold loop_body. rewrite window_values_slice by lia. cbn.
  unfold py_truediv. rewrite bool_decide_eq_false_2.
  - cbn. rewrite (py_getitem_nat _ _ _ Hi). reflexivity.
  - unfold py_len at 1. rewrite length_fmap.
    fold (py_len (py_slice data (start w (Z.of_nat i))
                           (end_ (py_len data) w (Z.of_nat i)))).
    rewrite py_len_slice by lia. lia.
Qed.

Lemma foldM_loop_body data w acc pre rest :
  1 ≤ w → data = pre ++ rest →
  foldM (loop_body data w) acc (seqZ (py_len pre) (py_len rest))
  = Ok (acc ++ imap (λ k, smoothed data w (length pre + k)) rest).
Proof.
  intros Hw. revert acc pre. induction rest as [|s rest IH]; intros acc pre ->.
  - rewrite seqZ_nil by done. cbn. by rewrite app_nil_r.
  - unfold py_len at 2. rewrite seqZ_cons by (cbn; lia). cbn [foldM].
    unfold py_len at 1.
    rewrite (loop_body_ok _ w acc (length pre) s Hw)
      by (by rewrite lookup_app_r, Nat.sub_diag).
    cbn [mbind res_bind].
    specialize (IH (acc ++ [smoothed (pre ++ s :: rest) w (length pre) s])
                   (pre ++ [s])).
    rewrite <- app_assoc in IH. cbn [app] in IH. specialize (IH eq_refl).
    replace (Z.succ (Z.of_nat (length pre))) with (py_len (pre ++ [s]))
      by (unfold py_len; rewrite length_app; cbn; lia).
    replace (Z.pred (Z.of_nat (length (s :: rest)))) with (py_len rest)
      by (unfold py_len; cbn [length]; lia).
    rewrite IH, <- app_assoc. cbn [app imap]. do 3 f_equal.
    + by rewrite Nat.add_0_r.
    + apply imap_ext. intros k x _. cbn. rewrite length_app. cbn.
      f_equal. lia.
Qed.

(** For a positive window size the function returns, and row [i] of its
    result is [smoothed data w i (data[i])]. *)
Lemma compute_moving_average_ok data w :
  1 ≤ w →
  compute_moving_average data w = Ok (imap (smoothed data w) data).
Proof.
  intros Hw. unfold compute_moving_average, py_range.
  rewrite Z.sub_0_r.
  exact (foldM_loop_body data w [] [] data Hw eq_refl).
Qed.

(** * The object-store model computes what the value-level model does *)

Section simulation.

(** [data] is a list object of [h] whose items are row dicts spelling [s];
    [H] is [h] with further objects allocated after it. *)
Variables (h : Store.heap) (data : Store.loc).
Variables (items : list Store.loc) (s : list Sample).
Hypothesis Hdata : h !! data = Some (Store.PyList items).
Hypothesis Hrows : Forall2 (λ l row, Store.read_row h l = Some row) items s.

Lemma lookup_extend_old out l o :
  h !! l = Some o → Store.extend h out !! l = Some o.
Proof. intros Hl. unfold Store.extend. by apply lookup_app_l_Some. Qed.

Lemma length_extend out :
  length (Store.extend h out) = (S (length h) + length out)%nat.
Proof. unfold Store.extend. rewrite length_app. cbn. rewrite length_fmap. lia. Qed.

Lemma read_row_extend out l row :
  Store.read_row h l = Some row →
  Store.read_row (Store.extend h out) l = Some row.
Proof.
  unfold Store.read_row. destruct (h !! l) as [o|] eqn:Hl; [|done].
  by rewrite (lookup_extend_old out l o Hl).
Qed.

Lemma list_items_extend out :
  Store.list_items data (Store.extend h out) = Ok (items, Store.extend h out).
Proof. unfold Store.list_items. by rewrite (lookup_extend_old out _ _ Hdata). Qed.

Lemma py_len_items : py_len items = py_len s.
Proof. unfold py_len. by rewrite (Forall2_length _ _ _ Hrows). Qed.

(** Indexing the list of references and indexing the series agree, also
    on the exception raised. *)
Lemma py_getitem_items j :
  match py_getitem items j with
  | Ok l => ∃ row, py_getitem s j = Ok row ∧ Store.read_row h l = Some row
  | Raise e => py_getitem s j = Raise e
  end.
Proof.
  unfold py_getitem. rewrite py_len_items.
  set (k := if bool_decide (j < 0) then j + py_len s else j).
  case_bool_decide as Hk; [|done].
  destruct (lookup_lt_is_Some_2 s (Z.to_nat k)) as [row Hrow];
    [unfold py_len in Hk; lia|].
  destruct (Forall2_lookup_r _ _ _ _ _ Hrows Hrow) as (l & -> & Hl).
  rewrite Hrow. eauto.
Qed.

Lemma bind_run {A B : Type} (m : Store.M A) (f : A → Store.M B) H :
  (m ≫= f) H = match m H with Ok (a, H') => f a H' | Raise e => Raise e end.
Proof. reflexivity. Qed.

Lemma list_len_extend out :
  Store.list_len data (Store.extend h out) = Ok (py_len s, Store.extend h out).
Proof.
  unfold Store.list_len. rewrite bind_run, list_items_extend, py_len_items. done.
Qed.

Lemma list_getitem_extend out j :
  Store.list_getitem data j (Store.extend h out)
  = match py_getitem items j with
    | Ok l => Ok (l, Store.extend h out)
    | Raise e => Raise e
    end.
Proof. unfold Store.list_getitem. by rewrite bind_run, list_items_extend. Qed.

Lemma dict_row_extend out l row :
  Store.read_row h l = Some row →
  Store.dict_row l (Store.extend h out) = Ok (row, Store.extend h out).
Proof.
  intros Hl%(read_row_extend out). unfold Store.read_row in Hl.
  unfold Store.dict_row.
  destruct (Store.extend h out !! l) as [[|row']|]; congruence.
Qed.

(** [data[j]['production']] read from the store and from the series. *)
Lemma item_production_extend out j :
  (d ← Store.list_getitem data j; Store.dict_production d) (Store.extend h out)
  = match d ← py_getitem s j; mret (production d) with
    | Ok v => Ok (v, Store.extend h out)
    | Raise e => Raise e
    end.
Proof.
  rewrite bind_run, list_getitem_extend.
  pose proof (py_getitem_items j) as Hj.
  destruct (py_getitem items j) as [l|e]; [|by rewrite Hj].
  destruct Hj as (row & -> & Hl). unfold Store.dict_production.
  by rewrite bind_run, (dict_row_extend out l row Hl).
Qed.

Lemma window_values_extend out js :
  mapM (λ j, d ← Store.list_getitem data j; Store.dict_production d) js
       (Store.extend h out)
  = match mapM (λ j, d ← py_getitem s j; mret (production d)) js with
    | Ok vs => Ok (vs, Store.extend h out)
    | Raise e => Raise e
    end.
Proof.
  induction js as [|j js IH]; [done|].
  cbn [mapM]. rewrite bind_run, item_production_extend.
  destruct (d ← py_getitem s j; mret (production d)) as [v|e]; [|done].
  rewrite bind_run, IH. clear IH. cbn [mbind res_bind].
  destruct (mapM (M:=res) _ js); reflexivity.
Qed.

Lemma insert_result out x :
  <[length h := Store.PyList (seq (S (length h)) (length out)
                              ++ [length (Store.extend h out)])]>
    (Store.extend h out ++ [Store.PyDict x])
  = Store.extend h (out ++ [x]).
Proof.
  unfold Store.extend at 2 3. rewrite <- app_assoc. cbn [app].
  rewrite insert_app_r_alt, Nat.sub_diag by done. cbn [list_insert insert].
  rewrite length_extend, fmap_app, length_app. cbn [length fmap list_fmap].
  rewrite Nat.add_1_r, seq_S. done.
Qed.

Lemma append_row_extend out x :
  (row ← Store.alloc (Store.PyDict x); Store.list_append (length h) row)
    (Store.extend h out)
  = Ok ((), Store.extend h (out ++ [x])).
Proof.
  rewrite bind_run. unfold Store.alloc, Store.list_append.
  rewrite lookup_app_l by (rewrite length_extend; lia).
  unfold Store.extend at 1. rewrite list_lookup_middle by done.
  by rewrite insert_result.
Qed.

Lemma loop_body_extend w out i :
  Store.loop_body data w (length h) i (Store.extend h out)
  = match loop_body s w out i with
    | Ok out' => Ok ((), Store.extend h out')
    | Raise e => Raise e
    end.
Proof.
  unfold Store.loop_body, loop_body. cbv zeta.
  rewrite bind_run, list_len_extend.
  rewrite bind_run, window_values_extend.
  destruct (mapM _ (py_range _ _)) as [vs|e]; [|done].
  cbn [mbind res_bind]. rewrite bind_run. unfold Store.lift at 1.
  destruct (py_truediv _ _) as [average|e]; [|done].
  cbn [mbind res_bind]. rewrite bind_run, list_getitem_extend.
  pose proof (py_getitem_items i) as Hi.
  destruct (py_getitem items i) as [l|e]; [|by rewrite Hi].
  destruct Hi as (row & -> & Hl). cbn [mbind res_bind].
  rewrite bind_run. unfold Store.dict_date.
  rewrite bind_run, (dict_row_extend out l row Hl). cbn [mret Store.M_ret].
  apply append_row_extend.
Qed.

Lemma for_each_extend w out js :
  Store.for_each js (Store.loop_body data w (length h)) (Store.extend h out)
  = match foldM (loop_body s w) out js with
    | Ok out' => Ok ((), Store.extend h out')
    | Raise e => Raise e
    end.
Proof.
  revert out. induction js as [|j js IH]; intros out; [done|].
  cbn [Store.for_each foldM]. rewrite bind_run, loop_body_extend.
  destruct (loop_body s w out j) as [out'|e]; [|done].
  cbn [mbind res_bind]. apply IH.
Qed.

(** The run of the object-store model, in terms of the value-level one:
    the same exception, or the result list at the first free location of
    a store that extends the initial one. *)
Lemma compute_moving_average_extend w :
  Store.compute_moving_average data w h
  = match compute_moving_average s w with
    | Ok out => Ok (length h, Store.extend h out)
    | Raise e => Raise e
    end.
Proof.
  unfold Store.compute_moving_average, compute_moving_average.
  rewrite bind_run. unfold Store.alloc at 1.
  change (h ++ [Store.PyList []]) with (Store.extend h []).
  rewrite bind_run, list_len_extend.
  rewrite bind_run, for_each_extend.
  destruct (foldM _ _ _); reflexivity.
Qed.

End simulation.

(** * Binary64 facts *)

Section float64.
Import Float64.

Lemma fexp_binary64 x : fexp prec emax x = Z.max (x - 53) (-1074).
Proof. reflexivity. Qed.

Lemma of_int_0 : of_int 0 = 0%float.
Proof. reflexivity. Qed.

Lemma of_int_1 : of_int 1 = 1%float.
Proof. reflexivity. Qed.

(** A mantissa in canonical position is left alone by the rounding step. *)
Lemma shr_fexp_canonical m e :
  fexp prec emax (Zpos (digits2_pos m) + e) = e →
  shr_fexp prec emax (Zpos m) e loc_Exact
  = ({| shr_m := Zpos m; shr_r := false; shr_s := false |}, e).
Proof.
  intros Hc. unfold shr_fexp. cbn [Zdigits2]. rewrite Hc, Z.sub_diag. reflexivity.
Qed.

Lemma binary_round_aux_canonical s m e :
  fexp prec emax (Zpos (digits2_pos m) + e) = e → e ≤ 971 →
  binary_round_aux prec emax s (Zpos m) e loc_Exact = S754_finite s m e.
Proof.
  intros Hc He. unfold binary_round_aux.
  rewrite shr_fexp_canonical by done.
  cbn [shr_m loc_of_shr_record round_nearest_even].
  rewrite shr_fexp_canonical by done. cbn [shr_m].
  change (emax - prec) with 971.
  destruct (Z.leb_spec e 971); [done|lia].
Qed.

(** One extra low zero bit is shifted out again. *)
Lemma binary_round_aux_double s m e :
  fexp prec emax (Zpos (digits2_pos m) + e) = e → e ≤ 971 →
  binary_round_aux prec emax s (Zpos m~0) (e - 1) loc_Exact = S754_finite s m e.
Proof.
  intros Hc He. unfold binary_round_aux.
  assert (Hs : shr_fexp prec emax (Zpos m~0) (e - 1) loc_Exact
               = ({| shr_m := Zpos m; shr_r := false; shr_s := false |}, e)).
  { unfold shr_fexp. cbn [Zdigits2 digits2_pos shr_record_of_loc].
    rewrite Pos2Z.inj_succ.
    replace (Z.succ (Zpos (digits2_pos m)) + (e - 1))
      with (Zpos (digits2_pos m) + e) by lia.
    rewrite Hc. replace (e - (e - 1)) with 1 by lia.
    unfold shr. cbn [iter_pos shr_1 orb]. f_equal. lia. }
  rewrite Hs. cbn [shr_m loc_of_shr_record round_nearest_even].
  rewrite shr_fexp_canonical by done. cbn [shr_m].
  change (emax - prec) with 971.
  destruct (Z.leb_spec e 971); [done|lia].
Qed.

Lemma div_eucl_mul a b : b ≠ 0 → Z.div_eucl (a * b) b = (a, 0).
Proof.
  intros Hb. pose proof (Z.div_mul a b Hb) as Hq.
  pose proof (Z.mod_mul a b Hb) as Hr.
  unfold Z.div, Z.modulo in Hq, Hr.
  destruct (Z.div_eucl (a * b) b). congruence.
Qed.

(** The quotient of a canonical mantissa by [1.0], before rounding. *)
Lemma SFdiv_core_one m e :
  fexp prec emax (Zpos (digits2_pos m) + e) = e →
  SFdiv_core_binary prec emax (Zpos m) e 4503599627370496 (-52)
  = if bool_decide (e = -1074) then (Zpos m, e, loc_Exact)
    else (Zpos m~0, e - 1, loc_Exact).
Proof.
  intros Hc. unfold SFdiv_core_binary.
  change (Zdigits2 4503599627370496) with 53. cbn [Zdigits2].
  pose proof (Pos2Z.is_pos (digits2_pos m)) as Hd.
  rewrite fexp_binary64 in Hc. rewrite fexp_binary64.
  case_bool_decide as He.
  - replace (Z.min _ _) with e by lia.
    replace (e - -52 - e) with 52 by lia.
    rewrite Z.shiftl_mul_pow2 by lia.
    change (2 ^ 52) with 4503599627370496.
    rewrite div_eucl_mul by lia. reflexivity.
  - replace (Z.min _ _) with (e - 1) by lia.
    replace (e - -52 - (e - 1)) with 53 by lia.
    rewrite Z.shiftl_mul_pow2 by lia.
    replace (Z.pos m * 2 ^ 53) with (Z.pos m~0 * 4503599627370496) by lia.
    rewrite div_eucl_mul by lia. reflexivity.
Qed.

Lemma SFdiv_one s m e :
  bounded prec emax m e = true →
  SFdiv prec emax (S754_finite s m e) sf_one = S754_finite s m e.
Proof.
  unfold bounded, canonical_mantissa. intros [Hc He]%andb_prop.
  apply Z.eqb_eq in Hc. apply Z.leb_le in He.
  change (emax - prec) with 971 in He.
  unfold SFdiv, sf_one. rewrite SFdiv_core_one by done.
  rewrite xorb_false_r.
  case_bool_decide.
  - by apply binary_round_aux_canonical.
  - by apply binary_round_aux_double.
Qed.

Lemma SFadd_zero_l x :
  x ≠ S754_zero true → SFadd prec emax (S754_zero false) x = x.
Proof. destruct x as [[]| | |]; done. Qed.

(** [sum([x]) / 1] is [x] itself, except that a negative zero comes out
    as the positive zero. *)
Lemma zero_plus_div_one (x : float) :
  x ≠ neg_zero → ((0 + x) / 1)%float = x.
Proof.
  intros Hx. apply Prim2SF_inj.
  rewrite div_spec, add_spec.
  change (Prim2SF 0) with (S754_zero false).
  change (Prim2SF 1) with sf_one.
  unfold SF64add. rewrite SFadd_zero_l.
  - pose proof (Prim2SF_valid x) as Hv. unfold SF64div.
    destruct (Prim2SF x) as [[]|[]| |s m e]; try reflexivity.
    by apply SFdiv_one.
  - intros Hz. apply Hx, Prim2SF_inj. by rewrite Hz.
Qed.

Lemma mean_singleton x : x ≠ neg_zero → mean [x] = x.
Proof.
  intros Hx. unfold mean, py_sum, py_len. cbn [foldl length].
  change (Z.of_nat 1) with 1.
  rewrite of_int_0, of_int_1. by apply zero_plus_div_one.
Qed.

Lemma mean_neg_zero : mean [neg_zero] = 0%float.
Proof. reflexivity. Qed.

(** ** The rounding rule *)

Lemma tenths_nearest_even m e : is_tenths m e (tenths m e).
Proof.
  unfold is_tenths, nearest_even, tenths. destruct e as [|p|p].
  - change (Z.max 0 0) with 0. change (Z.max (- 0) 0) with 0.
    change (2 ^ 0) with 1. lia.
  - rewrite Z.max_l, Z.max_r by lia. change (2 ^ 0) with 1. lia.
  - rewrite Z.max_r, Z.max_l by lia. change (- Z.neg p) with (Z.pos p).
    change (2 ^ 0) with 1. change (Z.pow_pos 2 p) with (2 ^ Z.pos p).
    assert (Hd : 0 < 2 ^ Z.pos p) by (apply Z.pow_pos_nonneg; lia).
    rewrite Z.mul_1_r.
    generalize dependent (2 ^ Z.pos p). intros d Hd.
    generalize (10 * Z.pos m). intros a.
    pose proof (Z.div_mod a d ltac:(lia)) as Ha.
    pose proof (Z.mod_pos_bound a d Hd) as Hr.
    generalize dependent (a `div` d). intros q.
    generalize dependent (a `mod` d). intros r Hr Ha.
    destruct (Z.compare_spec (2 * r) d) as [Heq|Hlt|Hgt].
    + destruct (Z.even q) eqn:Hev.
      * split; [nia|done].
      * split; [nia|]. intros _.
        rewrite Z.add_1_r, Z.even_succ, <- Z.negb_even, Hev. done.
    + split; nia.
    + split; nia.
Qed.

(** The rule leaves no choice: the nearest integer, even on a tie, is
    unique. *)
Lemma nearest_even_unique a d n n' :
  0 < d → nearest_even a d n → nearest_even a d n' → n = n'.
Proof.
  intros Hd [H1 E1] [H2 E2].
  assert (Hclose : n' = n ∨ n' = n + 1 ∨ n = n' + 1) by nia.
  destruct Hclose as [->|[->| ->]]; [done| |].
  - assert (T1 : 2 * Z.abs (a - n * d) = d) by nia.
    assert (T2 : 2 * Z.abs (a - (n + 1) * d) = d) by nia.
    specialize (E1 T1). specialize (E2 T2).
    rewrite Z.add_1_r, Z.even_succ, <- Z.negb_even, E1 in E2. done.
  - assert (T1 : 2 * Z.abs (a - n' * d) = d) by nia.
    assert (T2 : 2 * Z.abs (a - (n' + 1) * d) = d) by nia.
    specialize (E2 T1). specialize (E1 T2).
    rewrite Z.add_1_r, Z.even_succ, <- Z.negb_even, E2 in E1. done.
Qed.

Lemma round1_rounds x : rounds_to_one_decimal x (round1 x).
Proof.
  unfold rounds_to_one_decimal, round1.
  destruct (Prim2SF x) as [s|s| |s m e] eqn:Hx; cbn [round1_spec].
  - by rewrite <- Hx, SF2Prim_Prim2SF.
  - by rewrite <- Hx, SF2Prim_Prim2SF.
  - by rewrite <- Hx, SF2Prim_Prim2SF.
  - exists (tenths m e). split; [apply tenths_nearest_even|done].
Qed.

End float64.

(** * The smoothed series *)

Lemma lookup_smoothed data w (i : nat) s :
  data !! i = Some s → imap (smoothed data w) data !! i = Some (smoothed data w i s).
Proof. intros Hi. by rewrite list_lookup_imap, Hi. Qed.

Lemma window_values_nonempty data w (i : Z) :
  1 ≤ w → 0 ≤ i < py_len data →
  py_len (production <$> window data w i)
  = end_ (py_len data) w i - start w i.
Proof.
  intros Hw Hi. destruct (window_bounds (py_len data) w i Hw Hi).
  unfold py_len at 1. rewrite length_fmap. fold (py_len (window data w i)).
  unfold window. rewrite py_len_slice; lia.
Qed.

(** C1. For a window size of at least one, the function returns a series
    whose value at each index [i] is, with [half = w // 2],
    [lo = max(0, i - half)] and [hi = min(len(series), lo + w)], the sum of
    the values at indices [lo] (inclusive) to [hi] (exclusive) divided by
    their count, rounded to one decimal place. *)
Theorem window_mean_at_each_index (data : list Sample) (w : Z) :
  1 ≤ w →
  ∃ out, compute_moving_average data w = Ok out ∧
    ∀ i : nat, (i < length data)%nat →
      let half := w `div` 2 in
      let lo := 0 `max` (Z.of_nat i - half) in
      let hi := py_len data `min` (lo + w) in
      let values := production <$> py_slice data lo hi in
      ∃ o, out !! i = Some o ∧
        production o
        = Float64.round1 (py_sum values / Float64.of_int (py_len values))%float.
Proof.
  intros Hw. exists (imap (smoothed data w) data).
  split; [by apply compute_moving_average_ok|].
  intros i Hi. destruct (lookup_lt_is_Some_2 data i Hi) as [s Hs].
  exists (smoothed data w i s). split; [by apply lookup_smoothed|done].
Qed.

Lemma window_mean_at_each_index_witness :
  1 ≤ 4 ∧
  ∃ out, compute_moving_average data6 4 = Ok out ∧
    ∀ i : nat, (i < length data6)%nat →
      let half := 4 `div` 2 in
      let lo := 0 `max` (Z.of_nat i - half) in
      let hi := py_len data6 `min` (lo + 4) in
      let values := production <$> py_slice data6 lo hi in
      ∃ o, out !! i = Some o ∧
        production o
        = Float64.round1 (py_sum values / Float64.of_int (py_len values))%float.
Proof.
  split; [lia|]. apply (window_mean_at_each_index data6 4). lia.
Defined.

(** C2, as stated, fails: on the three values [0, 0, 3] with window size 3
    (which is at least the length) the last output is the mean of the last
    two values, 1.5, and not the mean of all three, 1.0. *)
Lemma saturation_counterexample :
  data3 ≠ [] ∧ py_len data3 ≤ 3 ∧
  compute_moving_average data3 3
  = Ok [ mkSample "d0" 1; mkSample "d1" 1; mkSample "d2" 1.5 ] ∧
  Float64.round1 (mean (production <$> data3)) = 1%float ∧
  ¬ Float64.same_number 1.5 1.
Proof.
  split; [done|]. split; [done|]. split; [reflexivity|]. split; [reflexivity|].
  intros [Heq|Heq].
  - apply (f_equal (PrimFloat.eqb 1)) in Heq. vm_compute in Heq. done.
  - vm_compute in Heq. done.
Qed.

(** C2, amended. For a non-empty series and a window size of at least its
    length, the output at every index [i <= w // 2] is the mean of all input
    values rounded to one decimal place; at an index [i > w // 2] it is the
    rounded mean of the values from index [i - w // 2] to the end. *)
Theorem saturation_up_to_half_window (data : list Sample) (w : Z) :
  data ≠ [] → py_len data ≤ w →
  ∃ out, compute_moving_average data w = Ok out ∧
    ∀ (i : nat) o, out !! i = Some o →
      (Z.of_nat i ≤ w `div` 2 →
         production o = Float64.round1 (mean (production <$> data))) ∧
      (w `div` 2 < Z.of_nat i →
         production o
         = Float64.round1
             (mean (production <$> drop (Z.to_nat (Z.of_nat i - w `div` 2)) data))).
Proof.
  intros Hne Hlen.
  assert (Hpos : 0 < py_len data) by (destruct data; [done|unfold py_len; cbn; lia]).
  assert (Hw : 1 ≤ w) by lia.
  exists (imap (smoothed data w) data).
  split; [by apply compute_moving_average_ok|].
  intros i o Ho. rewrite list_lookup_imap in Ho.
  destruct (data !! i) as [s|] eqn:Hs; [|done]. injection Ho as <-.
  pose proof (lookup_lt_Some _ _ _ Hs) as Hi.
  destruct (half_window_bounds w Hw) as [H0 H2]. unfold half_window in *.
  cbn [production smoothed]. unfold window, end_, start, half_window.
  split; intros Hhalf.
  - rewrite Z.max_l by lia. rewrite Z.min_l by lia. by rewrite py_slice_all.
  - rewrite Z.max_r by lia.
    rewrite Z.min_l by (unfold py_len in *; lia).
    unfold py_slice. rewrite firstn_all2; [done|].
    rewrite length_drop. unfold py_len. lia.
Qed.

Lemma saturation_up_to_half_window_witness :
  data3 ≠ [] ∧ py_len data3 ≤ 3 ∧
  ∃ out, compute_moving_average data3 3 = Ok out ∧
    ∀ (i : nat) o, out !! i = Some o →
      (Z.of_nat i ≤ 3 `div` 2 →
         production o = Float64.round1 (mean (production <$> data3))) ∧
      (3 `div` 2 < Z.of_nat i →
         production o
         = Float64.round1
             (mean (production <$> drop (Z.to_nat (Z.of_nat i - 3 `div` 2)) data3))).
Proof.
  assert (Hne : data3 ≠ []) by discriminate.
  assert (Hlen : py_len data3 ≤ 3) by (vm_compute; discriminate).
  split; [exact Hne|]. split; [exact Hlen|].
  exact (saturation_up_to_half_window data3 3 Hne Hlen).
Defined.

(** C3. For a window size of at least one, the output has the length of the
    input and carries the same labels in the same order; a row has no other
    field than its label and its value. *)
Theorem length_and_labels_preserved (data : list Sample) (w : Z) :
  1 ≤ w →
  ∃ out, compute_moving_average data w = Ok out ∧
    length out = length data ∧
    date <$> out = date <$> data ∧
    ∀ i : nat, date <$> out !! i = date <$> data !! i.
Proof.
  intros Hw. exists (imap (smoothed data w) data).
  split; [by apply compute_moving_average_ok|].
  split; [by rewrite length_imap|].
  assert (Hdates : date <$> imap (smoothed data w) data = date <$> data).
  { apply list_eq. intros i. rewrite !list_lookup_fmap, list_lookup_imap.
    by destruct (data !! i). }
  split; [done|].
  intros i. by rewrite <- !list_lookup_fmap, Hdates.
Qed.

Lemma length_and_labels_preserved_witness :
  1 ≤ 4 ∧
  ∃ out, compute_moving_average data6 4 = Ok out ∧
    length out = length data6 ∧
    date <$> out = date <$> data6 ∧
    ∀ i : nat, date <$> out !! i = date <$> data6 !! i.
Proof.
  split; [lia|]. apply (length_and_labels_preserved data6 4). lia.
Defined.

(** C4. With window size 1 every output row keeps its label and its value is
    the input value rounded to one decimal place: the same number always
    (the same binary64 value, or equal under [==]), and the very same
    binary64 value unless the input is the negative zero, whose one-element
    sum [0 + (-0.0)] is the positive zero. *)
Theorem identity_at_window_one (data : list Sample) (i : nat) (s : Sample) :
  data !! i = Some s →
  ∃ out o, compute_moving_average data 1 = Ok out ∧ out !! i = Some o ∧
    date o = date s ∧
    Float64.same_number (production o) (Float64.round1 (production s)) ∧
    (production s ≠ neg_zero → production o = Float64.round1 (production s)).
Proof.
  intros Hs. pose proof (lookup_lt_Some _ _ _ Hs) as Hi.
  exists (imap (smoothed data 1) data), (smoothed data 1 i s).
  split; [by apply compute_moving_average_ok|].
  split; [by apply lookup_smoothed|]. split; [done|].
  assert (Hwin : window data 1 (Z.of_nat i) = [s]).
  { unfold window, end_, start, half_window. change (1 `div` 2) with 0.
    rewrite Z.sub_0_r, Z.max_r by lia.
    rewrite Z.min_r by (unfold py_len; lia).
    unfold py_slice. rewrite Z.add_simpl_l, Nat2Z.id.
    change (Z.to_nat 1) with 1%nat.
    rewrite (drop_S _ _ _ Hs). done. }
  cbn [production smoothed]. rewrite Hwin. cbn [fmap list_fmap].
  assert (Hexact : production s ≠ neg_zero →
            Float64.round1 (mean [production s]) = Float64.round1 (production s)).
  { intros Hnz. by rewrite mean_singleton. }
  split; [|exact Hexact].
  destruct (PrimFloat.Leibniz.eqb (production s) neg_zero) eqn:Hz.
  - apply Leibniz.eqb_spec in Hz. rewrite Hz, mean_neg_zero. right. reflexivity.
  - left. apply Hexact. intros Hnz. apply Leibniz.eqb_spec in Hnz. congruence.
Qed.

Lemma identity_at_window_one_witness :
  data6 !! 2%nat = Some (mkSample "d2" 3) ∧
  ∃ out o, compute_moving_average data6 1 = Ok out ∧ out !! 2%nat = Some o ∧
    date o = date (mkSample "d2" 3) ∧
    Float64.same_number (production o) (Float64.round1 (production (mkSample "d2" 3))) ∧
    (production (mkSample "d2" 3) ≠ neg_zero →
       production o = Float64.round1 (production (mkSample "d2" 3))).
Proof.
  split; [reflexivity|].
  apply (identity_at_window_one data6 2 (mkSample "d2" 3)). reflexivity.
Defined.

(** What window size 1 does to the two inputs that are not plain numbers
    or are the negative zero: NaN stays NaN, and [-0.0] becomes [0.0], which
    [round(-0.0, 1)] is equal to under [==] but not identical to. *)
Example window_one_nan_and_neg_zero :
  compute_moving_average [ mkSample "d0" nan; mkSample "d1" neg_zero ] 1
  = Ok [ mkSample "d0" nan; mkSample "d1" 0 ] ∧
  Float64.round1 nan = nan ∧ Float64.round1 neg_zero = neg_zero ∧
  (nan =? nan)%float = false ∧ (0 =? neg_zero)%float = true.
Proof. repeat split; reflexivity. Qed.

(** C5. For a window size of at least one and an index [i] of the series,
    [start < end]: the list comprehension yields a non-empty list of window
    values, the division does not raise, and the whole call does not raise
    [ZeroDivisionError] (it returns). *)
Theorem window_never_empty (data : list Sample) (w i : Z) :
  1 ≤ w → 0 ≤ i < py_len data →
  start w i < end_ (py_len data) w i ∧
  (∃ window_values average,
     mapM (λ j, d ← py_getitem data j; mret (production d))
          (py_range (start w i) (end_ (py_len data) w i)) = Ok window_values ∧
     window_values ≠ [] ∧ 0 < py_len window_values ∧
     py_truediv (py_sum window_values) (py_len window_values) = Ok average) ∧
  compute_moving_average data w ≠ Raise ZeroDivisionError ∧
  ∃ out, compute_moving_average data w = Ok out.
Proof.
  intros Hw Hi. destruct (window_bounds (py_len data) w i Hw Hi) as [Hs He].
  split; [lia|].
  assert (Hlen : py_len (production <$> window data w i)
                 = end_ (py_len data) w i - start w i)
    by by apply window_values_nonempty.
  split.
  - exists (production <$> window data w i), (mean (production <$> window data w i)).
    split; [apply window_values_slice; lia|].
    split; [intros Hnil; rewrite Hnil in Hlen;
            change (py_len (@nil float)) with 0 in Hlen; lia|].
    split; [lia|].
    unfold py_truediv. rewrite bool_decide_eq_false_2 by lia. done.
  - rewrite compute_moving_average_ok by done. split; [done|eauto].
Qed.

Lemma window_never_empty_witness :
  1 ≤ 4 ∧ 0 ≤ 5 < py_len data6 ∧
  start 4 5 < end_ (py_len data6) 4 5 ∧
  (∃ window_values average,
     mapM (λ j, d ← py_getitem data6 j; mret (production d))
          (py_range (start 4 5) (end_ (py_len data6) 4 5)) = Ok window_values ∧
     window_values ≠ [] ∧ 0 < py_len window_values ∧
     py_truediv (py_sum window_values) (py_len window_values) = Ok average) ∧
  compute_moving_average data6 4 ≠ Raise ZeroDivisionError ∧
  ∃ out, compute_moving_average data6 4 = Ok out.
Proof.
  assert (Hw : 1 ≤ 4) by lia.
  assert (Hi : 0 ≤ 5 < py_len data6) by (unfold py_len, data6; cbn [length]; lia).
  split; [exact Hw|]. split; [exact Hi|].
  exact (window_never_empty data6 4 5 Hw Hi).
Defined.

(** Without the precondition the empty window is reached: window size 0
    raises [ZeroDivisionError] on any non-empty series. *)
Example window_size_zero_raises :
  compute_moving_average data3 0 = Raise ZeroDivisionError.
Proof. reflexivity. Qed.

(** C6. On the values [1..6] labelled [d0..d5] with window size 4 the output
    values are 2.5 at indices 0, 1 and 2 and 5.0 at index 5. *)
Theorem left_edge_example :
  ∃ v3 v4,
    compute_moving_average data6 4
    = Ok [ mkSample "d0" 2.5; mkSample "d1" 2.5; mkSample "d2" 2.5;
           mkSample "d3" v3; mkSample "d4" v4; mkSample "d5" 5 ].
Proof. exists 3.5%float, 4.5%float. reflexivity. Qed.

(** C7. On the empty series the loop ranges over no index, so its body,
    and with it the division, is never run, and the function returns the
    empty series, for every window size. *)
Theorem empty_input (w : Z) :
  py_range 0 (py_len (@nil Sample)) = [] ∧
  compute_moving_average [] w = Ok [].
Proof. split; reflexivity. Qed.

(** C10. For a window size of at least one and an index [i] of the series,
    [start <= i < end], and the window holds sample [i] at offset
    [i - start]. *)
Theorem window_contains_index (data : list Sample) (w i : Z) :
  1 ≤ w → 0 ≤ i < py_len data →
  start w i ≤ i < end_ (py_len data) w i ∧
  ∃ s, py_getitem data i = Ok s ∧
       window data w i !! Z.to_nat (i - start w i) = Some s.
Proof.
  intros Hw Hi. destruct (window_bounds (py_len data) w i Hw Hi) as [Hs He].
  split; [lia|].
  destruct (lookup_lt_is_Some_2 data (Z.to_nat i)) as [s Hsi];
    [unfold py_len in Hi; lia|].
  exists s. split.
  - rewrite <- (Z2Nat.id i) by lia. by apply py_getitem_nat.
  - unfold window. rewrite lookup_py_slice by lia.
    by replace (Z.to_nat (start w i) + Z.to_nat (i - start w i))%nat
      with (Z.to_nat i) by lia.
Qed.

Lemma window_contains_index_witness :
  1 ≤ 4 ∧ 0 ≤ 5 < py_len data6 ∧
  start 4 5 ≤ 5 < end_ (py_len data6) 4 5 ∧
  ∃ s, py_getitem data6 5 = Ok s ∧
       window data6 4 5 !! Z.to_nat (5 - start 4 5) = Some s.
Proof.
  assert (Hw : 1 ≤ 4) by lia.
  assert (Hi : 0 ≤ 5 < py_len data6) by (unfold py_len, data6; cbn [length]; lia).
  split; [exact Hw|]. split; [exact Hi|].
  exact (window_contains_index data6 4 5 Hw Hi).
Defined.

(** C8. For a window size of at least one, the value stored at index [i] is
    [round1 average], where [average] is the quotient of the sum of the
    window's input values, as they were read, by their count: one rounding,
    of the average, half-to-even at one decimal digit. *)
Theorem rounded_once_after_averaging (data : list Sample) (w : Z) :
  1 ≤ w →
  ∃ out, compute_moving_average data w = Ok out ∧
    ∀ (i : nat) s, data !! i = Some s →
      let window_values := production <$> window data w (Z.of_nat i) in
      ∃ o average,
        out !! i = Some o ∧
        py_truediv (py_sum window_values) (py_len window_values) = Ok average ∧
        production o = Float64.round1 average ∧
        Float64.rounds_to_one_decimal average (production o).
Proof.
  intros Hw. exists (imap (smoothed data w) data).
  split; [by apply compute_moving_average_ok|].
  intros i s Hs window_values. pose proof (lookup_lt_Some _ _ _ Hs) as Hi.
  exists (smoothed data w i s), (mean window_values).
  split; [by apply lookup_smoothed|]. split.
  - unfold py_truediv. rewrite bool_decide_eq_false_2; [done|].
    unfold window_values.
    rewrite window_values_nonempty by (unfold py_len; lia).
    destruct (window_bounds (py_len data) w (Z.of_nat i) Hw);
      [unfold py_len|]; lia.
  - split; [done|]. apply round1_rounds.
Qed.

Lemma rounded_once_after_averaging_witness :
  1 ≤ 2 ∧
  ∃ out, compute_moving_average data3 2 = Ok out ∧
    ∀ (i : nat) s, data3 !! i = Some s →
      let window_values := production <$> window data3 2 (Z.of_nat i) in
      ∃ o average,
        out !! i = Some o ∧
        py_truediv (py_sum window_values) (py_len window_values) = Ok average ∧
        production o = Float64.round1 average ∧
        Float64.rounds_to_one_decimal average (production o).
Proof.
  split; [lia|]. apply (rounded_once_after_averaging data3 2). lia.
Defined.

(** Averages that lie exactly half-way between two tenths go to the even
    tenth: 0.25 to 0.2 and 0.75 to 0.8, at every position. *)
Example rounding_boundary :
  compute_moving_average [ mkSample "d0" 0.5; mkSample "d1" 0 ] 2
  = Ok [ mkSample "d0" (Float64.tenth 2); mkSample "d1" (Float64.tenth 2) ] ∧
  compute_moving_average [ mkSample "d0" 1.5; mkSample "d1" 0 ] 2
  = Ok [ mkSample "d0" (Float64.tenth 8); mkSample "d1" (Float64.tenth 8) ].
Proof. split; reflexivity. Qed.

(** Rounding the inputs before they enter the window sums is a different
    function: on 0.3125 and 0.4375 the average 0.375 rounds to 0.4, while the
    rounded inputs 0.3 and 0.4 average to 0.35, which rounds to 0.3. *)
Example rounding_inputs_first_differs :
  let data := [ mkSample "d0" 0.3125; mkSample "d1" 0.4375 ] in
  compute_moving_average data 2
  = Ok [ mkSample "d0" (Float64.tenth 4); mkSample "d1" (Float64.tenth 4) ] ∧
  compute_moving_average (round_inputs data) 2
  = Ok [ mkSample "d0" (Float64.tenth 3); mkSample "d1" (Float64.tenth 3) ] ∧
  (Float64.tenth 4 =? Float64.tenth 3)%float = false.
Proof. repeat split; reflexivity. Qed.

(** * The store after the call *)

Section store_frame.
Variables (h : list Store.object) (out : list Sample).

Lemma lookup_extend_result :
  Store.extend h out !! length h
  = Some (Store.PyList (seq (S (length h)) (length out))).
Proof. unfold Store.extend. by rewrite list_lookup_middle. Qed.

Lemma lookup_extend_row (k : nat) :
  Store.extend h out !! (S (length h) + k)%nat = Store.PyDict <$> out !! k.
Proof.
  unfold Store.extend. rewrite lookup_app_r by lia.
  replace (S (length h) + k - length h)%nat with (S k) by lia.
  rewrite <- list_lookup_fmap. reflexivity.
Qed.

Lemma read_series_extend_result :
  Store.read_series (Store.extend h out) (length h) = Some out.
Proof.
  unfold Store.read_series. rewrite lookup_extend_result.
  apply mapM_Some, Forall2_same_length_lookup_2.
  - by rewrite length_seq.
  - intros k l row [-> Hk]%lookup_seq Hrow.
    unfold Store.read_row. by rewrite lookup_extend_row, Hrow.
Qed.

Lemma read_series_extend_old data s :
  Store.read_series h data = Some s →
  Store.read_series (Store.extend h out) data = Some s.
Proof.
  unfold Store.read_series.
  destruct (h !! data) as [[items|]|] eqn:Hdata; try done.
  rewrite (lookup_extend_old h out data _ Hdata).
  rewrite !mapM_Some. intros Hrows.
  eapply Forall2_impl; [exact Hrows|].
  intros l row. apply read_row_extend.
Qed.

Lemma rows_fresh :
  Forall (λ l, h !! l = None) (seq (S (length h)) (length out)).
Proof.
  apply Forall_forall. intros l [Hl _]%elem_of_seq.
  apply lookup_ge_None. lia.
Qed.

End store_frame.

(** C9. Run on a store in which [data] is a list of row dicts spelling the
    series [s], with a window size of at least one, the function returns a
    reference [result] and a store [h'] such that: every object of the
    initial store is unchanged in [h'], so [data] still spells [s] (same
    length, labels and values); [result] spells the series that the
    value-level model computes; and the result list and each of its rows are
    objects that the initial store did not hold. *)
Theorem input_not_mutated (h : list Store.object) (data : nat)
    (s : list Sample) (w : Z) :
  1 ≤ w → Store.read_series h data = Some s →
  ∃ result h' out,
    Store.compute_moving_average data w h = Ok (result, h') ∧
    (∀ l o, h !! l = Some o → h' !! l = Some o) ∧
    Store.read_series h' data = Some s ∧
    compute_moving_average s w = Ok out ∧
    Store.read_series h' result = Some out ∧
    h !! result = None ∧
    ∃ rows, h' !! result = Some (Store.PyList rows) ∧
            Forall (λ l, h !! l = None) rows.
Proof.
  intros Hw Hs. pose proof Hs as Hread. unfold Store.read_series in Hread.
  destruct (h !! data) as [[items|]|] eqn:Hdata; try done.
  apply mapM_Some in Hread.
  pose proof (compute_moving_average_extend h data items s Hdata Hread w) as Hrun.
  rewrite compute_moving_average_ok in Hrun by done.
  set (out := imap (smoothed s w) s) in *.
  exists (length h), (Store.extend h out), out.
  split; [done|].
  split; [intros l o; apply lookup_extend_old|].
  split; [by apply read_series_extend_old|].
  split; [by apply compute_moving_average_ok|].
  split; [apply read_series_extend_result|].
  split; [by apply lookup_ge_None|].
  exists (seq (S (length h)) (length out)).
  split; [apply lookup_extend_result|apply rows_fresh].
Qed.

Lemma input_not_mutated_witness :
  1 ≤ 3 ∧ Store.read_series heap3 3 = Some data3 ∧
  ∃ result h' out,
    Store.compute_moving_average 3 3 heap3 = Ok (result, h') ∧
    (∀ l o, heap3 !! l = Some o → h' !! l = Some o) ∧
    Store.read_series h' 3 = Some data3 ∧
    compute_moving_average data3 3 = Ok out ∧
    Store.read_series h' result = Some out ∧
    heap3 !! result = None ∧
    ∃ rows, h' !! result = Some (Store.PyList rows) ∧
            Forall (λ l, heap3 !! l = None) rows.
Proof.
  assert (Hw : 1 ≤ 3) by lia.
  assert (Hs : Store.read_series heap3 3 = Some data3) by reflexivity.
  split; [exact Hw|]. split; [exact Hs|].
  exact (input_not_mutated heap3 3 data3 3 Hw Hs).
Defined.

(** The run on [heap3], spelled out: the four initial objects stay, the
    result list is object 4 and its rows are objects 5 to 7. *)
Example run_on_heap3 :
  Store.compute_moving_average 3 3 heap3
  = Ok (4%nat,
        heap3 ++ [ Store.PyList [5; 6; 7]%nat;
                   Store.PyDict (mkSample "d0" 1); Store.PyDict (mkSample "d1" 1);
                   Store.PyDict (mkSample "d2" 1.5) ]).
Proof. reflexivity. Qed.

(** * Further properties of [compute_moving_average] *)

(** ** Which calls return *)

(** With a window size of zero or less every window is empty, whatever the
    index. *)
Lemma loop_body_nonpositive data w acc i :
  w ≤ 0 → loop_body data w acc i = Raise ZeroDivisionError.
Proof.
  intros Hw. unfold loop_body, end_, py_range.
  rewrite seqZ_nil by lia. reflexivity.
Qed.

Lemma compute_moving_average_nonpositive data w :
  data ≠ [] → w ≤ 0 → compute_moving_average data w = Raise ZeroDivisionError.
Proof.
  intros Hne Hw. destruct data as [|s rest]; [done|].
  unfold compute_moving_average, py_range, py_len.
  rewrite seqZ_cons by (cbn [length]; lia). cbn [foldM].
  by rewrite loop_body_nonpositive.
Qed.

(** The three ways a call can go. *)
Lemma compute_moving_average_cases data w :
  (1 ≤ w ∧ compute_moving_average data w = Ok (imap (smoothed data w) data)) ∨
  (data = [] ∧ compute_moving_average data w = Ok []) ∨
  (data ≠ [] ∧ w ≤ 0 ∧ compute_moving_average data w = Raise ZeroDivisionError).
Proof.
  destruct (decide (1 ≤ w)) as [Hw|Hw].
  - left. split; [done|]. by apply compute_moving_average_ok.
  - right. destruct data as [|s rest]; [left; done|right].
    split; [done|]. split; [lia|].
    apply compute_moving_average_nonpositive; [done|lia].
Qed.

(** X1. The call returns exactly when the series is empty or the window
    size is at least one; on a non-empty series with a window size of zero
    or less it raises [ZeroDivisionError]; and it raises nothing else: no
    index it reads is out of range, for any window size. *)
Theorem outcome_by_window_size (data : list Sample) (w : Z) :
  ((∃ out, compute_moving_average data w = Ok out) ↔ data = [] ∨ 1 ≤ w) ∧
  (compute_moving_average data w = Raise ZeroDivisionError ↔ data ≠ [] ∧ w ≤ 0) ∧
  (∀ e, compute_moving_average data w = Raise e → e = ZeroDivisionError).
Proof.
  destruct (compute_moving_average_cases data w)
    as [[Hw ->]|[[-> ->]|(Hne & Hw & ->)]].
  - split; [split; eauto|]. split; [|done]. split; [done|lia].
  - split; [split; eauto|]. split; [|done]. split; [done|]. by intros [? _].
  - split; [|split; [done|congruence]].
    split; [by intros [? ?]|]. intros [?|?]; [done|lia].
Qed.

(** ** The shape of the window *)

Lemma lookup_compute_moving_average data w out (i : nat) o :
  1 ≤ w → compute_moving_average data w = Ok out → out !! i = Some o →
  ∃ s, data !! i = Some s ∧ o = smoothed data w i s.
Proof.
  intros Hw Hout Ho. rewrite compute_moving_average_ok in Hout by done.
  injection Hout as <-. rewrite list_lookup_imap in Ho.
  destruct (data !! i) as [s|]; [|done]. injection Ho as <-. eauto.
Qed.

Lemma py_slice_0 {A : Type} (l : list A) b : py_slice l 0 b = take (Z.to_nat b) l.
Proof. unfold py_slice. by rewrite Z.sub_0_r. Qed.

(** X2. For a window size of at least one, every output at an index
    [i <= w // 2] has the same value: the rounded mean of the first [w]
    values of the series (of all of them when there are fewer than [w]). *)
Theorem left_edge_plateau (data : list Sample) (w : Z) :
  1 ≤ w →
  ∃ out, compute_moving_average data w = Ok out ∧
    ∀ (i : nat) o, out !! i = Some o → Z.of_nat i ≤ w `div` 2 →
      production o
      = Float64.round1 (mean (production <$> take (Z.to_nat w) data)).
Proof.
  intros Hw. exists (imap (smoothed data w) data).
  split; [by apply compute_moving_average_ok|].
  intros i o Ho Hi. rewrite list_lookup_imap in Ho.
  destruct (data !! i) as [s|] eqn:Hs; [|done]. injection Ho as <-.
  cbn [production smoothed]. do 3 f_equal.
  unfold window, end_, start, half_window.
  rewrite Z.max_l, Z.add_0_l, py_slice_0 by lia.
  destruct (Z.min_spec (py_len data) w) as [[Hlt ->]|[Hge ->]]; [|done].
  unfold py_len in *. rewrite Nat2Z.id, !take_ge; [done|lia|lia].
Qed.

Lemma left_edge_plateau_witness :
  1 ≤ 4 ∧
  ∃ out, compute_moving_average data6 4 = Ok out ∧
    ∀ (i : nat) o, out !! i = Some o → Z.of_nat i ≤ 4 `div` 2 →
      production o
      = Float64.round1 (mean (production <$> take (Z.to_nat 4) data6)).
Proof.
  split; [lia|]. apply (left_edge_plateau data6 4). lia.
Defined.

(** X3. Where the window is cut by neither end of the series, that is for
    [w // 2 <= i] and [i - w // 2 + w <= len(data)], it has exactly [w]
    values: [w // 2] of them before index [i] and [(w - 1) // 2] after it,
    so it is centred on [i] when [w] is odd and reaches one sample further
    back than forward when [w] is even. *)
Theorem interior_window (data : list Sample) (w i : Z) :
  1 ≤ w → w `div` 2 ≤ i → i - w `div` 2 + w ≤ py_len data →
  i - start w i = w `div` 2 ∧
  end_ (py_len data) w i - 1 - i = (w - 1) `div` 2 ∧
  ∃ window_values,
    mapM (λ j, d ← py_getitem data j; mret (production d))
         (py_range (start w i) (end_ (py_len data) w i)) = Ok window_values ∧
    py_len window_values = w.
Proof.
  intros Hw Hlo Hhi. destruct (half_window_bounds w Hw) as [H0 H2].
  unfold half_window in *.
  assert (Hs : start w i = i - w `div` 2)
    by (unfold start, half_window; lia).
  assert (He : end_ (py_len data) w i = i - w `div` 2 + w)
    by (unfold end_; rewrite Hs; lia).
  assert (Hafter : (w - 1) `div` 2 = w - 1 - w `div` 2).
  { pose proof (Z.div_mod w 2 ltac:(lia)).
    pose proof (Z.mod_pos_bound w 2 ltac:(lia)).
    pose proof (Z.div_mod (w - 1) 2 ltac:(lia)).
    pose proof (Z.mod_pos_bound (w - 1) 2 ltac:(lia)). lia. }
  split; [lia|]. split; [lia|].
  exists (production <$> window data w i).
  split; [apply window_values_slice; lia|].
  rewrite window_values_nonempty by lia. lia.
Qed.

Lemma interior_window_witness :
  1 ≤ 4 ∧ 4 `div` 2 ≤ 3 ∧ 3 - 4 `div` 2 + 4 ≤ py_len data6 ∧
  3 - start 4 3 = 4 `div` 2 ∧
  end_ (py_len data6) 4 3 - 1 - 3 = (4 - 1) `div` 2 ∧
  ∃ window_values,
    mapM (λ j, d ← py_getitem data6 j; mret (production d))
         (py_range (start 4 3) (end_ (py_len data6) 4 3)) = Ok window_values ∧
    py_len window_values = 4.
Proof.
  assert (Hw : 1 ≤ 4) by lia.
  assert (Hlo : 4 `div` 2 ≤ 3) by (vm_compute; discriminate).
  assert (Hhi : 3 - 4 `div` 2 + 4 ≤ py_len data6) by (vm_compute; discriminate).
  split; [exact Hw|]. split; [exact Hlo|]. split; [exact Hhi|].
  exact (interior_window data6 4 3 Hw Hlo Hhi).
Defined.

(** X4. For a window size of at least one and an index [i] of the series,
    the window holds [min(w, len(data) - start)] values: never more than
    [w], and never fewer than [w // 2 + 1] unless the whole series is
    shorter than that. *)
Theorem window_length (data : list Sample) (w i : Z) :
  1 ≤ w → 0 ≤ i < py_len data →
  ∃ window_values,
    mapM (λ j, d ← py_getitem data j; mret (production d))
         (py_range (start w i) (end_ (py_len data) w i)) = Ok window_values ∧
    py_len window_values = w `min` (py_len data - start w i) ∧
    py_len data `min` (w `div` 2 + 1) ≤ py_len window_values ≤ py_len data `min` w.
Proof.
  intros Hw Hi. destruct (half_window_bounds w Hw) as [H0 H2].
  destruct (window_bounds (py_len data) w i Hw Hi) as [Hs He].
  exists (production <$> window data w i).
  split; [apply window_values_slice; lia|].
  rewrite window_values_nonempty by lia.
  unfold end_ in *. unfold start, half_window in *. lia.
Qed.

Lemma window_length_witness :
  1 ≤ 4 ∧ 0 ≤ 5 < py_len data6 ∧
  ∃ window_values,
    mapM (λ j, d ← py_getitem data6 j; mret (production d))
         (py_range (start 4 5) (end_ (py_len data6) 4 5)) = Ok window_values ∧
    py_len window_values = 4 `min` (py_len data6 - start 4 5) ∧
    py_len data6 `min` (4 `div` 2 + 1) ≤ py_len window_values ≤ py_len data6 `min` 4.
Proof.
  assert (Hw : 1 ≤ 4) by lia.
  assert (Hi : 0 ≤ 5 < py_len data6) by (unfold py_len, data6; cbn [length]; lia).
  split; [exact Hw|]. split; [exact Hi|].
  exact (window_length data6 4 5 Hw Hi).
Defined.

(** ** What an output depends on *)

(** Two series that agree on the values of a slice have the same window
    values there. *)
Lemma py_slice_values_ext (data data' : list Sample) a b :
  0 ≤ a → length data = length data' →
  (∀ j : nat, a ≤ Z.of_nat j < b →
     production <$> data !! j = production <$> data' !! j) →
  production <$> py_slice data a b = production <$> py_slice data' a b.
Proof.
  intros Ha Hlen Hagree.
  apply (list_eq_same_length _ _ (length (py_slice data a b))).
  - unfold py_slice. by rewrite !length_fmap, !length_take, !length_drop, Hlen.
  - by rewrite length_fmap.
  - intros k x y Hk. rewrite !list_lookup_fmap.
    assert (Hkb : Z.of_nat k < b - a).
    { unfold py_slice in Hk. rewrite length_take in Hk. lia. }
    rewrite !lookup_py_slice by lia.
    specialize (Hagree (Z.to_nat a + k)%nat ltac:(lia)).
    rewrite Hagree. congruence.
Qed.

(** X5. For a window size of at least one, the value at index [i] depends
    on nothing but the values inside the window of [i]: two series of the
    same length whose values agree at the indices [start, ..., end - 1] of
    that window get the same value at [i], however they differ elsewhere. *)
Theorem output_depends_on_window_only (data data' : list Sample) (w : Z)
    (i : nat) :
  1 ≤ w → length data = length data' →
  (∀ j : nat, start w (Z.of_nat i) ≤ Z.of_nat j < end_ (py_len data) w (Z.of_nat i) →
     production <$> data !! j = production <$> data' !! j) →
  ∃ out out',
    compute_moving_average data w = Ok out ∧
    compute_moving_average data' w = Ok out' ∧
    production <$> out !! i = production <$> out' !! i.
Proof.
  intros Hw Hlen Hagree.
  exists (imap (smoothed data w) data), (imap (smoothed data' w) data').
  split; [by apply compute_moving_average_ok|].
  split; [by apply compute_moving_average_ok|].
  rewrite !list_lookup_imap.
  destruct (data !! i) as [s|] eqn:Hs.
  - destruct (lookup_lt_is_Some_2 data' i) as [s' Hs'];
      [rewrite <- Hlen; by eapply lookup_lt_Some|].
    rewrite Hs'.
    assert (Hwin : production <$> window data w (Z.of_nat i)
                   = production <$> window data' w (Z.of_nat i)).
    { unfold window.
      replace (py_len data') with (py_len data) by (unfold py_len; lia).
      apply py_slice_values_ext; [unfold start; lia|done|done]. }
    change (Some (production (smoothed data w i s))
            = Some (production (smoothed data' w i s'))).
    unfold smoothed. cbn [production]. by rewrite Hwin.
  - apply lookup_ge_None in Hs. rewrite Hlen in Hs.
    apply lookup_ge_None in Hs. by rewrite Hs.
Qed.

Lemma output_depends_on_window_only_witness :
  1 ≤ 1 ∧ length data3 = length data_nan ∧
  (∀ j : nat, start 1 (Z.of_nat 2) ≤ Z.of_nat j < end_ (py_len data3) 1 (Z.of_nat 2) →
     production <$> data3 !! j = production <$> data_nan !! j) ∧
  ∃ out out',
    compute_moving_average data3 1 = Ok out ∧
    compute_moving_average data_nan 1 = Ok out' ∧
    production <$> out !! 2%nat = production <$> out' !! 2%nat.
Proof.
  assert (Hw : 1 ≤ 1) by lia.
  assert (Hlen : length data3 = length data_nan) by reflexivity.
  assert (Hagree : ∀ j : nat,
            start 1 (Z.of_nat 2) ≤ Z.of_nat j < end_ (py_len data3) 1 (Z.of_nat 2) →
            production <$> data3 !! j = production <$> data_nan !! j).
  { intros j Hj. change (start 1 (Z.of_nat 2)) with 2 in Hj.
    change (end_ (py_len data3) 1 (Z.of_nat 2)) with 3 in Hj.
    assert (j = 2%nat) as -> by lia. reflexivity. }
  split; [exact Hw|]. split; [exact Hlen|]. split; [exact Hagree|].
  exact (output_depends_on_window_only data3 data_nan 1 2 Hw Hlen Hagree).
Defined.

Lemma py_slice_app_l {A : Type} (l more : list A) a b :
  0 ≤ a → b ≤ py_len l → py_slice (l ++ more) a b = py_slice l a b.
Proof.
  intros Ha Hb. unfold py_slice, py_len in *.
  destruct (decide (b ≤ a)) as [Hba|Hba].
  - by replace (Z.to_nat (b - a)) with 0%nat by lia.
  - rewrite drop_app_le by lia. rewrite take_app_le; [done|].
    rewrite length_drop. lia.
Qed.

Lemma py_slice_app_r {A : Type} (pre l : list A) a b :
  0 ≤ a →
  py_slice (pre ++ l) (py_len pre + a) (py_len pre + b) = py_slice l a b.
Proof.
  intros Ha. unfold py_slice, py_len.
  replace (Z.of_nat (length pre) + b - (Z.of_nat (length pre) + a))
    with (b - a) by lia.
  replace (Z.to_nat (Z.of_nat (length pre) + a))
    with (length pre + Z.to_nat a)%nat by lia.
  by rewrite drop_app_add.
Qed.

(** X6. Appending samples to the series leaves every output unchanged whose
    window was not cut by the end of the series: for a window size of at
    least one and [start + w <= len(data)], row [i] is the same before and
    after. *)
Theorem append_keeps_full_windows (data more : list Sample) (w : Z) (i : nat) :
  1 ≤ w → start w (Z.of_nat i) + w ≤ py_len data →
  ∃ out out',
    compute_moving_average data w = Ok out ∧
    compute_moving_average (data ++ more) w = Ok out' ∧
    out' !! i = out !! i.
Proof.
  intros Hw Hfull.
  exists (imap (smoothed data w) data),
         (imap (smoothed (data ++ more) w) (data ++ more)).
  split; [by apply compute_moving_average_ok|].
  split; [by apply compute_moving_average_ok|].
  destruct (half_window_bounds w Hw) as [H0 H2].
  assert (Hi : (i < length data)%nat)
    by (unfold start, py_len in *; lia).
  assert (Hwin : window (data ++ more) w (Z.of_nat i)
                 = window data w (Z.of_nat i)).
  { unfold window, end_.
    replace (py_len (data ++ more)) with (py_len data + py_len more)
      by (unfold py_len; rewrite length_app; lia).
    assert (0 ≤ py_len more) by (unfold py_len; lia).
    rewrite !Z.min_r by lia.
    apply py_slice_app_l; [unfold start; lia|lia]. }
  rewrite !list_lookup_imap, lookup_app_l by done.
  destruct (data !! i) as [s|]; [|done].
  unfold smoothed. by rewrite Hwin.
Qed.

Lemma append_keeps_full_windows_witness :
  1 ≤ 2 ∧ start 2 (Z.of_nat 1) + 2 ≤ py_len data3 ∧
  ∃ out out',
    compute_moving_average data3 2 = Ok out ∧
    compute_moving_average (data3 ++ [mkSample "d3" 9]) 2 = Ok out' ∧
    out' !! 1%nat = out !! 1%nat.
Proof.
  assert (Hw : 1 ≤ 2) by lia.
  assert (Hfull : start 2 (Z.of_nat 1) + 2 ≤ py_len data3)
    by (vm_compute; discriminate).
  split; [exact Hw|]. split; [exact Hfull|].
  exact (append_keeps_full_windows data3 [mkSample "d3" 9] 2 1 Hw Hfull).
Defined.

(** X7. Putting [k] samples in front of the series moves every output that
    lies at least [w // 2] from the start [k] places to the right, row and
    value unchanged: output [k + i] of the longer series is output [i] of
    the shorter one. *)
Theorem prepend_shifts_outputs (pre data : list Sample) (w : Z) (i : nat) :
  1 ≤ w → w `div` 2 ≤ Z.of_nat i →
  ∃ out out',
    compute_moving_average data w = Ok out ∧
    compute_moving_average (pre ++ data) w = Ok out' ∧
    out' !! (length pre + i)%nat = out !! i.
Proof.
  intros Hw Hi.
  exists (imap (smoothed data w) data),
         (imap (smoothed (pre ++ data) w) (pre ++ data)).
  split; [by apply compute_moving_average_ok|].
  split; [by apply compute_moving_average_ok|].
  destruct (half_window_bounds w Hw) as [H0 H2]. unfold half_window in *.
  assert (Hwin : window (pre ++ data) w (Z.of_nat (length pre + i))
                 = window data w (Z.of_nat i)).
  { unfold window.
    replace (py_len (pre ++ data)) with (py_len pre + py_len data)
      by (unfold py_len; rewrite length_app; lia).
    replace (start w (Z.of_nat (length pre + i)))
      with (py_len pre + start w (Z.of_nat i))
      by (unfold start, half_window, py_len; lia).
    replace (end_ (py_len pre + py_len data) w (Z.of_nat (length pre + i)))
      with (py_len pre + end_ (py_len data) w (Z.of_nat i))
      by (unfold end_, start, half_window, py_len; lia).
    apply py_slice_app_r. unfold start. lia. }
  rewrite !list_lookup_imap, lookup_app_r, Nat.add_sub' by lia.
  destruct (data !! i) as [s|]; [|done].
  unfold smoothed. by rewrite Hwin.
Qed.

Lemma prepend_shifts_outputs_witness :
  1 ≤ 2 ∧ 2 `div` 2 ≤ Z.of_nat 1 ∧
  ∃ out out',
    compute_moving_average data3 2 = Ok out ∧
    compute_moving_average (data6 ++ data3) 2 = Ok out' ∧
    out' !! (length data6 + 1)%nat = out !! 1%nat.
Proof.
  assert (Hw : 1 ≤ 2) by lia.
  assert (Hi : 2 `div` 2 ≤ Z.of_nat 1) by (vm_compute; discriminate).
  split; [exact Hw|]. split; [exact Hi|].
  exact (prepend_shifts_outputs data6 data3 2 1 Hw Hi).
Defined.

Lemma window_relabel f data w i :
  production <$> window (relabel f <$> data) w i = production <$> window data w i.
Proof.
  unfold window, py_slice, py_len.
  rewrite length_fmap, <- fmap_drop, <- fmap_take, <- list_fmap_compose.
  done.
Qed.

(** X8. The values do not depend on the labels, and the labels pass
    through untouched: relabelling the input and then smoothing is the same
    as smoothing and then relabelling the output, for every window size
    (also when the call raises). *)
Theorem relabel_commutes (f : string → string) (data : list Sample) (w : Z) :
  compute_moving_average (relabel f <$> data) w
  = fmap (M:=list) (relabel f) <$> compute_moving_average data w.
Proof.
  destruct (compute_moving_average_cases data w)
    as [[Hw ->]|[[-> ->]|(Hne & Hw & ->)]].
  - rewrite compute_moving_average_ok by done.
    change (Ok (imap (smoothed (relabel f <$> data) w) (relabel f <$> data))
            = Ok (relabel f <$> imap (smoothed data w) data)).
    f_equal. apply list_eq. intros i.
    rewrite list_lookup_fmap, !list_lookup_imap, list_lookup_fmap.
    destruct (data !! i) as [s|]; [|done]. cbn [fmap option_fmap option_map].
    unfold smoothed. rewrite window_relabel. reflexivity.
  - reflexivity.
  - rewrite compute_moving_average_nonpositive; [done| |done].
    by destruct data.
Qed.

(** ** How the window moves *)

(** X9. For a window size of at least one, going from index [i] to
    [i + 1] moves each end of the window forward by one place or not at
    all: the window slides over the series and never steps back. *)
Theorem window_slides_forward (n w i : Z) :
  1 ≤ w → 0 ≤ i → i + 1 < n →
  start w i ≤ start w (i + 1) ≤ start w i + 1 ∧
  end_ n w i ≤ end_ n w (i + 1) ≤ end_ n w i + 1.
Proof.
  intros Hw Hi Hn. destruct (half_window_bounds w Hw) as [H0 H2].
  unfold end_, start. lia.
Qed.

Lemma window_slides_forward_witness :
  1 ≤ 4 ∧ 0 ≤ 2 ∧ 2 + 1 < 6 ∧
  start 4 2 ≤ start 4 (2 + 1) ≤ start 4 2 + 1 ∧
  end_ 6 4 2 ≤ end_ 6 4 (2 + 1) ≤ end_ 6 4 2 + 1.
Proof.
  assert (Hw : 1 ≤ 4) by lia.
  assert (Hi : 0 ≤ 2) by lia.
  assert (Hn : 2 + 1 < 6) by lia.
  split; [exact Hw|]. split; [exact Hi|]. split; [exact Hn|].
  exact (window_slides_forward 6 4 2 Hw Hi Hn).
Defined.

(** X10. For a window size of at least one, the sample at index [j] lies
    in the window of index [i] only if [i <= j + w // 2]; and, past the
    first [w // 2] indices, only if [j - (w - 1 - w // 2) <= i].  The
    windows of the first [w // 2] indices all start at 0 and reach up to
    sample [w - 1]. *)
Theorem influence_range (n w i j : Z) :
  1 ≤ w → 0 ≤ i →
  start w i ≤ j < end_ n w i →
  i ≤ j + w `div` 2 ∧
  (w `div` 2 ≤ i → j - (w - 1 - w `div` 2) ≤ i) ∧
  (i < w `div` 2 → j < w).
Proof.
  intros Hw Hi Hj. destruct (half_window_bounds w Hw) as [H0 H2].
  unfold end_, start, half_window in *. lia.
Qed.

Lemma influence_range_witness :
  1 ≤ 4 ∧ 0 ≤ 0 ∧ start 4 0 ≤ 3 < end_ 6 4 0 ∧
  0 ≤ 3 + 4 `div` 2 ∧
  (4 `div` 2 ≤ 0 → 3 - (4 - 1 - 4 `div` 2) ≤ 0) ∧
  (0 < 4 `div` 2 → 3 < 4).
Proof.
  assert (Hw : 1 ≤ 4) by lia.
  assert (Hi : 0 ≤ 0) by lia.
  assert (Hj : start 4 0 ≤ 3 < end_ 6 4 0)
    by (change (start 4 0) with 0; change (end_ 6 4 0) with 4; lia).
  split; [exact Hw|]. split; [exact Hi|]. split; [exact Hj|].
  exact (influence_range 6 4 0 3 Hw Hi Hj).
Defined.

(** ** Not-a-number inputs *)

Lemma add_nan_l x : (nan + x)%float = nan.
Proof.
  apply Prim2SF_inj. rewrite add_spec. change (Prim2SF nan) with S754_nan.
  unfold SF64add, SFadd. by destruct (Prim2SF x).
Qed.

Lemma add_nan_r x : (x + nan)%float = nan.
Proof.
  apply Prim2SF_inj. rewrite add_spec. change (Prim2SF nan) with S754_nan.
  unfold SF64add, SFadd. by destruct (Prim2SF x) as [[]|[]| |].
Qed.

Lemma div_nan_l y : (nan / y)%float = nan.
Proof.
  apply Prim2SF_inj. rewrite div_spec. change (Prim2SF nan) with S754_nan.
  unfold SF64div, SFdiv. by destruct (Prim2SF y).
Qed.

Lemma foldl_add_nan vs : foldl PrimFloat.add nan vs = nan.
Proof. induction vs as [|v vs IH]; [done|]. cbn. by rewrite add_nan_l. Qed.

(** A sum with a NaN among its items is NaN, and so is the mean. *)
Lemma py_sum_nan vs : nan ∈ vs → py_sum vs = nan.
Proof.
  unfold py_sum. generalize (Float64.of_int 0).
  induction vs as [|v vs IH]; intros acc Hin; [by apply elem_of_nil in Hin|].
  apply elem_of_cons in Hin as [<-|Hin]; cbn.
  - rewrite add_nan_r. apply foldl_add_nan.
  - by apply IH.
Qed.

Lemma mean_nan vs : nan ∈ vs → mean vs = nan.
Proof. intros Hin. unfold mean. rewrite py_sum_nan by done. apply div_nan_l. Qed.

(** X11. A NaN in the input makes every output NaN whose window covers it:
    for a window size of at least one, if the value at index [j] is NaN and
    [start <= j < end] for index [i], the output at [i] is NaN. *)
Theorem nan_spreads_over_window (data : list Sample) (w : Z) (i j : nat)
    (s : Sample) :
  1 ≤ w → (i < length data)%nat →
  data !! j = Some s → production s = nan →
  start w (Z.of_nat i) ≤ Z.of_nat j < end_ (py_len data) w (Z.of_nat i) →
  ∃ out o, compute_moving_average data w = Ok out ∧ out !! i = Some o ∧
           production o = nan.
Proof.
  intros Hw Hi Hj Hnan Hin.
  destruct (lookup_lt_is_Some_2 data i Hi) as [si Hsi].
  exists (imap (smoothed data w) data), (smoothed data w i si).
  split; [by apply compute_moving_average_ok|].
  split; [by apply lookup_smoothed|].
  cbn [production smoothed]. rewrite mean_nan; [reflexivity|].
  rewrite <- Hnan. apply list_elem_of_fmap_2, list_elem_of_lookup.
  exists (Z.to_nat (Z.of_nat j - start w (Z.of_nat i))).
  assert (0 ≤ start w (Z.of_nat i)) by (unfold start; lia).
  unfold window. rewrite lookup_py_slice by lia.
  by replace (Z.to_nat (start w (Z.of_nat i))
              + Z.to_nat (Z.of_nat j - start w (Z.of_nat i)))%nat
    with j by lia.
Qed.

Lemma nan_spreads_over_window_witness :
  1 ≤ 3 ∧ (0 < length data_nan)%nat ∧
  data_nan !! 1%nat = Some (mkSample "d1" nan) ∧
  production (mkSample "d1" nan) = nan ∧
  start 3 (Z.of_nat 0) ≤ Z.of_nat 1 < end_ (py_len data_nan) 3 (Z.of_nat 0) ∧
  ∃ out o, compute_moving_average data_nan 3 = Ok out ∧ out !! 0%nat = Some o ∧
           production o = nan.
Proof.
  assert (Hw : 1 ≤ 3) by lia.
  assert (Hi : (0 < length data_nan)%nat) by (cbn [length data_nan]; lia).
  assert (Hj : data_nan !! 1%nat = Some (mkSample "d1" nan)) by reflexivity.
  assert (Hnan : production (mkSample "d1" nan) = nan) by reflexivity.
  assert (Hin : start 3 (Z.of_nat 0) ≤ Z.of_nat 1
                < end_ (py_len data_nan) 3 (Z.of_nat 0))
    by (change (start 3 (Z.of_nat 0)) with 0;
        change (end_ (py_len data_nan) 3 (Z.of_nat 0)) with 3; lia).
  split; [exact Hw|]. split; [exact Hi|]. split; [exact Hj|].
  split; [exact Hnan|]. split; [exact Hin|].
  exact (nan_spreads_over_window data_nan 3 0 1 _ Hw Hi Hj Hnan Hin).
Defined.

(** * Further properties of the run on the object store *)

(** X12. On a store in which [data] is a list of row dicts spelling the
    series [s], the run raises exactly the exception that the value-level
    function raises on [s]; otherwise it leaves the initial objects where
    they are, puts the result list at the first free location and one new
    dict per output row after it, in order, and returns the location of the
    list. *)
Theorem store_run_agrees (h : list Store.object) (data : nat)
    (s : list Sample) (w : Z) :
  Store.read_series h data = Some s →
  Store.compute_moving_average data w h
  = match compute_moving_average s w with
    | Ok out => Ok (length h, Store.extend h out)
    | Raise e => Raise e
    end.
Proof.
  intros Hs. unfold Store.read_series in Hs.
  destruct (h !! data) as [[items|]|] eqn:Hdata; try done.
  apply mapM_Some in Hs.
  exact (compute_moving_average_extend h data items s Hdata Hs w).
Qed.

Lemma store_run_agrees_witness :
  Store.read_series heap3 3 = Some data3 ∧
  Store.compute_moving_average 3 0 heap3
  = match compute_moving_average data3 0 with
    | Ok out => Ok (length heap3, Store.extend heap3 out)
    | Raise e => Raise e
    end.
Proof.
  assert (Hs : Store.read_series heap3 3 = Some data3) by reflexivity.
  split; [exact Hs|]. exact (store_run_agrees heap3 3 data3 0 Hs).
Defined.

(** X13. Every output row is a dict of its own: for a window size of at
    least one, the result list holds as many references as the input has
    rows, no two of them equal, none of them the result list or the input
    list, and each of them a row dict, also when the input list holds one
    dict several times. *)
Theorem output_rows_distinct (h : list Store.object) (data : nat)
    (s : list Sample) (w : Z) :
  1 ≤ w → Store.read_series h data = Some s →
  ∃ result h' rows,
    Store.compute_moving_average data w h = Ok (result, h') ∧
    h' !! result = Some (Store.PyList rows) ∧
    length rows = length s ∧
    NoDup rows ∧ (result ∉ rows) ∧ (data ∉ rows) ∧ result ≠ data ∧
    Forall (λ l, is_Some (Store.read_row h' l)) rows.
Proof.
  intros Hw Hs. pose proof Hs as Hread. unfold Store.read_series in Hread.
  destruct (h !! data) as [[items|]|] eqn:Hdata; try done.
  apply mapM_Some in Hread.
  pose proof (compute_moving_average_extend h data items s Hdata Hread w) as Hrun.
  rewrite compute_moving_average_ok in Hrun by done.
  set (out := imap (smoothed s w) s) in *.
  pose proof (lookup_lt_Some _ _ _ Hdata) as Hlt.
  exists (length h), (Store.extend h out), (seq (S (length h)) (length out)).
  split; [done|]. split; [apply lookup_extend_result|].
  split; [unfold out; by rewrite length_seq, length_imap|].
  split; [apply NoDup_seq|].
  split; [rewrite elem_of_seq; lia|].
  split; [rewrite elem_of_seq; lia|].
  split; [lia|].
  apply Forall_forall. intros l [Hl1 Hl2]%elem_of_seq.
  replace l with (S (length h) + (l - S (length h)))%nat by lia.
  unfold Store.read_row. rewrite lookup_extend_row.
  destruct (lookup_lt_is_Some_2 out (l - S (length h))) as [row ->]; [lia|].
  by eexists.
Qed.

Lemma output_rows_distinct_witness :
  1 ≤ 2 ∧
  Store.read_series heap_aliased 1
  = Some [ mkSample "d0" 2; mkSample "d0" 2; mkSample "d0" 2 ] ∧
  ∃ result h' rows,
    Store.compute_moving_average 1 2 heap_aliased = Ok (result, h') ∧
    h' !! result = Some (Store.PyList rows) ∧
    length rows = length [ mkSample "d0" 2; mkSample "d0" 2; mkSample "d0" 2 ] ∧
    NoDup rows ∧ (result ∉ rows) ∧ (1%nat ∉ rows) ∧ result ≠ 1%nat ∧
    Forall (λ l, is_Some (Store.read_row h' l)) rows.
Proof.
  assert (Hw : 1 ≤ 2) by lia.
  assert (Hs : Store.read_series heap_aliased 1
               = Some [ mkSample "d0" 2; mkSample "d0" 2; mkSample "d0" 2 ])
    by reflexivity.
  split; [exact Hw|]. split; [exact Hs|].
  exact (output_rows_distinct heap_aliased 1 _ 2 Hw Hs).
Defined.
